(** * PersonStore (src/app/store/person.store.ts)

    A shallow embedding of the NgRx component store that holds the list of
    people and the single-record edit workflow, together with the properties
    of its commands and of its save pipeline.

    The store is TypeScript running on a JavaScript engine: the declared
    types are erased at run time, objects are references into a heap, and
    the object spread [{ ...x }] allocates a new object.  The embedding
    therefore works on run-time values and an explicit heap. *)

From stdpp Require Import gmap strings list fin_maps.

Open Scope Z_scope.

(** ** Run-time values *)

(** Object references. *)
Abbreviation loc := positive (only parsing).

(** JavaScript numbers, as far as the store looks at them: it only applies
    [!] and [===] to a number, which tell [NaN] from the other numbers and
    compare those by value. *)
Inductive number :=
  | NaN
  | Num (z : Z).

Inductive value :=
  | VUndefined
  | VNull
  | VBool (b : bool)
  | VNum (n : number)
  | VStr (s : string)
  | VRef (l : loc).

#[global] Instance number_eq_dec : EqDecision number.
Proof. solve_decision. Defined.
#[global] Instance value_eq_dec : EqDecision value.
Proof. solve_decision. Defined.

(** An object is its table of own enumerable properties. *)
Abbreviation heap := (gmap positive (gmap string value)) (only parsing).

(** [Boolean(v)]: the values [undefined], [null], [false], [0], [NaN] and
    the empty string are falsy, everything else is truthy. *)
Definition truthy (v : value) : bool :=
  match v with
  | VUndefined | VNull => false
  | VBool b => b
  | VNum NaN => false
  | VNum (Num z) => negb (z =? 0)
  | VStr s => negb (String.eqb s "")
  | VRef _ => true
  end.

(** [a === b]: no coercion, [NaN] differs from itself, objects are compared
    by reference. *)
Definition strict_eq (a b : value) : bool :=
  match a, b with
  | VUndefined, VUndefined => true
  | VNull, VNull => true
  | VBool x, VBool y => Bool.eqb x y
  | VNum (Num x), VNum (Num y) => x =? y
  | VStr x, VStr y => String.eqb x y
  | VRef x, VRef y => (x =? y)%positive
  | _, _ => false
  end.

(** [o.k] for an object reference [o]: [undefined] when the property is
    missing. *)
Definition get_prop (h : heap) (l : loc) (k : string) : value :=
  default VUndefined (h !! l ≫= (.!! k)).

(** [o.k = v] on the object at [l]. *)
Definition set_prop (h : heap) (l : loc) (k : string) (v : value) : heap :=
  alter (<[k := v]>) l h.

(** [{ ...x }] for [x] a Person or [undefined]: the own properties of the
    object, none for [undefined]. *)
Definition spread_props (h : heap) (x : option loc) : gmap string value :=
  match x with
  | Some l => default ∅ (h !! l)
  | None => ∅
  end.

(** Allocation of an object literal: a reference not in use. *)
Definition new_loc (h : heap) : loc := fresh (dom h).

Definition alloc (h : heap) (o : gmap string value) : loc * heap :=
  (new_loc h, <[new_loc h := o]> h).

(** ** The state record *)

(** [interface PersonState].  [people] is an array of references to Person
    objects; the two optional fields hold whatever value was stored in
    them. *)
Record PersonState := mkState {
  people : list loc;
  editId : value;
  editedPerson : value
}.

Definition defaultState : PersonState :=
  {| people := []; editId := VUndefined; editedPerson := VUndefined |}.

(** *** Updaters: the reducers passed to [this.updater] *)

(** [(state, people) => ({ ...state, people: people || [] })]; an array is
    truthy even when empty, [null] is not. *)
Definition loadPeople (ps : option (list loc)) (s : PersonState) : PersonState :=
  {| people := match ps with Some l => l | None => [] end;
     editId := editId s;
     editedPerson := editedPerson s |}.

(** [(state, editId) => ({ ...state, editId })] *)
Definition setEditId (id : value) (s : PersonState) : PersonState :=
  {| people := people s; editId := id; editedPerson := editedPerson s |}.

(** [(state, editedPerson) => ({ ...state, editedPerson })] *)
Definition setEditedPerson (p : value) (s : PersonState) : PersonState :=
  {| people := people s; editId := editId s; editedPerson := p |}.

(** ** The store at run time *)

(** What the store writes to [console.log]: the tap on [editedPerson$] and
    the error callback of the save subscription. *)
Inductive LogEntry :=
  | LogEditedPerson (v : value)
  | LogError (e : value).

#[global] Instance LogEntry_eq_dec : EqDecision LogEntry.
Proof. solve_decision. Defined.

(** One call [starsWarsWebService.savePerson(person, editId)]. *)
Record SaveCall := mkCall {
  call_person : value;
  call_editId : value
}.

#[global] Instance SaveCall_eq_dec : EqDecision SaveCall.
Proof. solve_decision. Defined.

(** The subscription [saveData$.subscribe(...)] held in [sub].  While it
    listens, [switchMap] is subscribed to at most one inner observable: the
    one returned by the latest [savePerson] call, named by the position of
    that call in the list of calls.  An error notification ends the
    subscription; so does [ngOnDestroy]. *)
Inductive Pipeline :=
  | Listening (inner : option nat)
  | Errored
  | Unsubscribed.

#[global] Instance Pipeline_eq_dec : EqDecision Pipeline.
Proof. solve_decision. Defined.

Definition listening (p : Pipeline) : bool :=
  match p with Listening _ => true | _ => false end.

(** The store and what it has done so far: the current state, the heap its
    references point into, the lines written to the console, the calls
    made to the save service (oldest first) and the save subscription. *)
Record Store := mkStore {
  state : PersonState;
  objects : heap;
  console : list LogEntry;
  saves : list SaveCall;
  pipe : Pipeline
}.

(** The store after its constructor has run, on a heap [h]: the state is
    [defaultState], the save pipeline is subscribed and has received (and
    logged) the first emission of [editedPerson$]. *)
Definition new_store (h : heap) : Store :=
  {| state := defaultState; objects := h;
     console := [LogEditedPerson VUndefined];
     saves := []; pipe := Listening None |}.

(** Calling an updater: the state is replaced at once.  [editedPerson$] is
    [select(...)] followed by the logging [tap]; [select] re-emits only
    when the projected value is not [===] the previous one, and the store's
    own subscriber to [editedPerson$] is the [withLatestFrom] of the save
    pipeline, for as long as that pipeline is subscribed. *)
Definition update (f : PersonState → PersonState) (w : Store) : Store :=
  let s' := f (state w) in
  {| state := s'; objects := objects w;
     console :=
       if listening (pipe w)
          && negb (strict_eq (editedPerson (state w)) (editedPerson s'))
       then console w ++ [LogEditedPerson (editedPerson s')]
       else console w;
     saves := saves w; pipe := pipe w |}.

(** The same store on the heap [h]. *)
Definition with_objects (h : heap) (w : Store) : Store :=
  {| state := state w; objects := h; console := console w;
     saves := saves w; pipe := pipe w |}.

(** [(person) => person.id === id], the predicate given to [find]. *)
Definition has_id (h : heap) (id : value) (p : loc) : bool :=
  strict_eq (get_prop h p "id") id.

(** [!id && id !== 0]: the input is falsy and is not the number zero. *)
Definition no_selection (id : value) : bool :=
  negb (truthy id) && negb (strict_eq id (VNum (Num 0))).

(** Some person of [ps] has the id [id]. *)
Definition present (h : heap) (id : value) (ps : list loc) : bool :=
  existsb (has_id h id) ps.

(** [people.find((person) => person.id === id)] *)
Definition find_person (h : heap) (id : value) (ps : list loc) : option loc :=
  List.find (has_id h id) ps.

(** The [personToEdit] of the [editPerson] effect: a Person of [people],
    or [undefined] (here [None]). *)
Definition personToEdit (h : heap) (id : value) (ps : list loc) : option loc :=
  if no_selection id then None else find_person h id ps.

(** The body of the [editPerson] effect for one value [id] pushed into it:
    [withLatestFrom(this.people$)] pairs it with the current [people]. *)
Definition editPerson (id : value) (w : Store) : Store :=
  let ps := people (state w) in
  let w1 := update (setEditId id) w in
  let p := personToEdit (objects w1) id ps in
  let '(l, h) := alloc (objects w1) (spread_props (objects w1) p) in
  update (setEditedPerson (VRef l)) (with_objects h w1).

(** [clearEditedPerson()] *)
Definition clearEditedPerson (w : Store) : Store :=
  update (setEditedPerson VUndefined) (update (setEditId VUndefined) w).

(** [cancelEditPerson()] *)
Definition cancelEditPerson (w : Store) : Store := clearEditedPerson w.

(** [saveEditPerson()]: [saveEditPerson$.next()].  A subscribed pipeline
    takes the latest [editedPerson$] and [editId$], calls [savePerson] and
    switches to the observable it returns; a subject without subscriber
    drops the notification. *)
Definition saveEditPerson (w : Store) : Store :=
  match pipe w with
  | Listening _ =>
      {| state := state w; objects := objects w; console := console w;
         saves := saves w ++ [mkCall (editedPerson (state w)) (editId (state w))];
         pipe := Listening (Some (length (saves w))) |}
  | _ => w
  end.

(** The [next] callback of the save subscription. *)
Definition on_save_next (person : value) (w : Store) : Store :=
  clearEditedPerson (editPerson person w).

(** The [error] callback of the save subscription. *)
Definition on_save_error (e : value) (w : Store) : Store :=
  {| state := state w; objects := objects w;
     console := console w ++ [LogError e];
     saves := saves w; pipe := Errored |}.

(** The call whose observable [switchMap] is subscribed to, if any. *)
Definition current_call (w : Store) : option nat :=
  match pipe w with Listening c => c | _ => None end.

(** The observable returned by call [k] emits [person]. *)
Definition save_resolves (k : nat) (person : value) (w : Store) : Store :=
  if decide (current_call w = Some k) then on_save_next person w else w.

(** The observable returned by call [k] fails with [e]. *)
Definition save_fails (k : nat) (e : value) (w : Store) : Store :=
  if decide (current_call w = Some k) then on_save_error e w else w.

(** The observable returned by call [k] completes. *)
Definition save_completes (k : nat) (w : Store) : Store :=
  if decide (current_call w = Some k)
  then {| state := state w; objects := objects w; console := console w;
          saves := saves w; pipe := Listening None |}
  else w.

(** [ngOnDestroy()]: [this.sub.unsubscribe()]. *)
Definition ngOnDestroy (w : Store) : Store :=
  {| state := state w; objects := objects w; console := console w;
     saves := saves w; pipe := Unsubscribed |}.

(** Everything that can happen to a store: the commands of its callers and
    the notifications of the save service. *)
Inductive Op :=
  | LoadPeople (ps : option (list loc))
  | SetEditId (id : value)
  | SetEditedPerson (p : value)
  | EditPerson (id : value)
  | CancelEditPerson
  | SaveEditPerson
  | SaveResolves (k : nat) (person : value)
  | SaveFails (k : nat) (e : value)
  | SaveCompletes (k : nat)
  | Destroy.

Definition step (o : Op) (w : Store) : Store :=
  match o with
  | LoadPeople ps => update (loadPeople ps) w
  | SetEditId id => update (setEditId id) w
  | SetEditedPerson p => update (setEditedPerson p) w
  | EditPerson id => editPerson id w
  | CancelEditPerson => cancelEditPerson w
  | SaveEditPerson => saveEditPerson w
  | SaveResolves k p => save_resolves k p w
  | SaveFails k e => save_fails k e w
  | SaveCompletes k => save_completes k w
  | Destroy => ngOnDestroy w
  end.

(** Operations applied from left to right. *)
Definition run (os : list Op) (w : Store) : Store :=
  foldl (λ w o, step o w) w os.

(** ** Properties of stores and of operations *)

(** Every element of [people] refers to an object of the heap. *)
Definition people_allocated (w : Store) : Prop :=
  Forall (λ p, is_Some (objects w !! p)) (people (state w)).

#[global] Instance people_allocated_dec w : Decision (people_allocated w).
Proof. unfold people_allocated. apply _. Defined.

(** Whenever [editId] is [undefined], [editedPerson] is [undefined]. *)
Definition edit_invariant (s : PersonState) : Prop :=
  editId s = VUndefined → editedPerson s = VUndefined.

#[global] Instance edit_invariant_dec s : Decision (edit_invariant s).
Proof. unfold edit_invariant. apply _. Defined.

(** The operations that keep the invariant from every state that has it:
    all but [setEditId(undefined)], [setEditedPerson(p)] for a [p] other
    than [undefined], and [editPerson(undefined)]. *)
Definition keeps_invariant (o : Op) : bool :=
  match o with
  | SetEditId id => negb (bool_decide (id = VUndefined))
  | SetEditedPerson p => bool_decide (p = VUndefined)
  | EditPerson id => negb (bool_decide (id = VUndefined))
  | _ => true
  end.

(** A call in flight is the latest call made. *)
Definition latest_inner (w : Store) : Prop :=
  ∀ c, current_call w = Some c → S c = length (saves w).

(** The trigger and the notifications of the save service. *)
Definition is_save_op (o : Op) : bool :=
  match o with
  | SaveEditPerson | SaveResolves _ _ | SaveFails _ _ | SaveCompletes _ => true
  | _ => false
  end.

(** The success callback as the specification words it: the edit selector
    is run with the [id] of the saved person, then the edit state is
    cleared. *)
Definition on_save_next_by_id (person : loc) (w : Store) : Store :=
  clearEditedPerson (editPerson (get_prop (objects w) person "id") w).

(** *** Further properties of stores and of operations *)

(** [loadPeople], the one updater that writes [people]. *)
Definition is_load (o : Op) : bool :=
  match o with LoadPeople _ => true | _ => false end.

(** The two updaters that write one edit field on their own; the other
    operations are the commands of the store and the events of its save
    pipeline. *)
Definition is_setter (o : Op) : bool :=
  match o with SetEditId _ | SetEditedPerson _ => true | _ => false end.

(** What ends the save subscription: the failure of a call and
    [ngOnDestroy]. *)
Definition ends_pipeline (o : Op) : bool :=
  match o with SaveFails _ _ | Destroy => true | _ => false end.

(** The run-time values of [Person | undefined]: [undefined], or a
    reference to an object of [h]. *)
Definition person_or_undefined (h : heap) (v : value) : Prop :=
  match v with
  | VUndefined => True
  | VRef l => is_Some (h !! l)
  | _ => False
  end.

#[global] Instance person_or_undefined_dec h v : Decision (person_or_undefined h v).
Proof. destruct v; simpl; apply _. Defined.

(** [editedPerson] is [undefined] or refers to an object of the heap. *)
Definition edited_allocated (w : Store) : Prop :=
  person_or_undefined (objects w) (editedPerson (state w)).

#[global] Instance edited_allocated_dec w : Decision (edited_allocated w).
Proof. unfold edited_allocated. apply _. Defined.

(** The operations that keep [edited_allocated]: all but a
    [setEditedPerson] with a value that is neither [undefined] nor a
    reference to an object of the heap. *)
Definition stores_allocated (w : Store) (o : Op) : Prop :=
  match o with
  | SetEditedPerson p => person_or_undefined (objects w) p
  | _ => True
  end.

(** Whenever [editedPerson] is [undefined], [editId] is [undefined]. *)
Definition selection_cleared (s : PersonState) : Prop :=
  editedPerson s = VUndefined → editId s = VUndefined.

#[global] Instance selection_cleared_dec s : Decision (selection_cleared s).
Proof. unfold selection_cleared. apply _. Defined.

(** The form assigns a property of the edited copy. *)
Definition edit_copy (k : string) (v : value) (w : Store) : Store :=
  match editedPerson (state w) with
  | VRef l => with_objects (set_prop (objects w) l k v) w
  | _ => w
  end.

(** ** Example data *)

Definition luke : gmap string value :=
  {[ "id" := VNum (Num 1); "name" := VStr "Luke" ]}.
Definition leia : gmap string value :=
  {[ "id" := VNum (Num 2); "name" := VStr "Leia" ]}.
Definition yoda : gmap string value :=
  {[ "id" := VNum (Num 0); "name" := VStr "Yoda" ]}.

Definition demo_heap : heap :=
  {[ 1%positive := luke; 2%positive := leia; 3%positive := yoda ]}.

(** A new store after [loadPeople([luke, leia, yoda])]. *)
Definition demo : Store :=
  update (loadPeople (Some [1; 2; 3]%positive)) (new_store demo_heap).

(** The store after [loadPeople([luke, leia, yoda])] and [editPerson(1)]. *)
Definition editing_luke : Store := editPerson (VNum (Num 1)) demo.

(** The person the save service answers with. *)
Definition luke_x : gmap string value :=
  {[ "id" := VNum (Num 1); "name" := VStr "Luke X" ]}.

(** The heap of the examples with that person at reference [5]. *)
Definition saved_heap : heap := <[5%positive := luke_x]> demo_heap.

(** [loadPeople([luke, leia, yoda])], [editPerson(1)], then the form sets
    the name of the edited copy. *)
Definition editing_luke_x : Store :=
  let w := editPerson (VNum (Num 1))
             (update (loadPeople (Some [1; 2; 3]%positive)) (new_store saved_heap)) in
  match editedPerson (state w) with
  | VRef l => with_objects (set_prop (objects w) l "name" (VStr "Luke X")) w
  | _ => w
  end.

(** The store of the save scenario once [saveEditPerson()] was called. *)
Definition awaiting_save : Store := saveEditPerson editing_luke_x.

(** ** Projections of the operations *)

Section Projections.
Context (w : Store).

Lemma update_state f : state (update f w) = f (state w).
Proof. reflexivity. Qed.

Lemma update_objects f : objects (update f w) = objects w.
Proof. reflexivity. Qed.

Lemma update_saves f : saves (update f w) = saves w.
Proof. reflexivity. Qed.

Lemma update_pipe f : pipe (update f w) = pipe w.
Proof. reflexivity. Qed.

Lemma editPerson_editId id : editId (state (editPerson id w)) = id.
Proof. reflexivity. Qed.

Lemma editPerson_people id : people (state (editPerson id w)) = people (state w).
Proof. reflexivity. Qed.

Lemma editPerson_editedPerson id :
  editedPerson (state (editPerson id w)) = VRef (new_loc (objects w)).
Proof. reflexivity. Qed.

Lemma editPerson_objects id :
  objects (editPerson id w)
  = <[new_loc (objects w) :=
        spread_props (objects w) (personToEdit (objects w) id (people (state w)))]>
      (objects w).
Proof. reflexivity. Qed.

Lemma editPerson_saves id : saves (editPerson id w) = saves w.
Proof. reflexivity. Qed.

Lemma editPerson_pipe id : pipe (editPerson id w) = pipe w.
Proof. reflexivity. Qed.

Lemma clearEditedPerson_state :
  state (clearEditedPerson w)
  = {| people := people (state w); editId := VUndefined;
       editedPerson := VUndefined |}.
Proof. reflexivity. Qed.

Lemma clearEditedPerson_objects : objects (clearEditedPerson w) = objects w.
Proof. reflexivity. Qed.

Lemma clearEditedPerson_saves : saves (clearEditedPerson w) = saves w.
Proof. reflexivity. Qed.

Lemma clearEditedPerson_pipe : pipe (clearEditedPerson w) = pipe w.
Proof. reflexivity. Qed.
End Projections.

(** ** Allocation *)

Lemma new_loc_unused (h : heap) : h !! new_loc h = None.
Proof. apply not_elem_of_dom. unfold new_loc. apply (is_fresh (dom h)). Qed.

Lemma new_loc_ne (h : heap) (l : loc) : is_Some (h !! l) → l ≠ new_loc h.
Proof. intros [o Ho] ->. rewrite new_loc_unused in Ho. discriminate. Qed.

(** ** The selection made by [editPerson] *)

Lemma strict_eq_NaN_r v : strict_eq v (VNum NaN) = false.
Proof. by destruct v as [| | |[]| |]. Qed.

Lemma find_first {A} (f : A → bool) (pre : list A) (x : A) (post : list A) :
  Forall (λ y, f y = false) pre → f x = true →
  List.find f (pre ++ x :: post) = Some x.
Proof.
  induction 1 as [|y pre Hy _ IH]; intros Hx; simpl.
  - by rewrite Hx.
  - rewrite Hy. by apply IH.
Qed.

Lemma find_none {A} (f : A → bool) (l : list A) :
  Forall (λ y, f y = false) l → List.find f l = None.
Proof. induction 1 as [|y l Hy _ IH]; simpl; [done | by rewrite Hy]. Qed.

Lemma no_selection_undefined : no_selection VUndefined = true.
Proof. reflexivity. Qed.

Lemma no_selection_zero : no_selection (VNum (Num 0)) = false.
Proof. reflexivity. Qed.

Lemma personToEdit_no_selection h id ps :
  no_selection id = true → personToEdit h id ps = None.
Proof. unfold personToEdit. by intros ->. Qed.

Lemma personToEdit_absent h id ps :
  Forall (λ p, has_id h id p = false) ps →
  personToEdit h id ps = None.
Proof.
  intros Hps. unfold personToEdit, find_person.
  rewrite (find_none _ _ Hps). by destruct (no_selection id).
Qed.

Lemma personToEdit_first h n pre l post :
  Forall (λ p, has_id h (VNum n) p = false) pre →
  has_id h (VNum n) l = true →
  personToEdit h (VNum n) (pre ++ l :: post) = Some l.
Proof.
  intros Hpre Hl. unfold personToEdit, find_person.
  rewrite (find_first _ _ _ _ Hpre Hl).
  destruct n as [|z].
  - unfold has_id in Hl. by rewrite strict_eq_NaN_r in Hl.
  - unfold no_selection. simpl. destruct (Z.eqb_spec z 0) as [->|]; [done|].
    simpl. by destruct z.
Qed.

(** ** Loading and cancelling *)

Lemma run_cons o os w : run (o :: os) w = run os (step o w).
Proof. reflexivity. Qed.

Lemma run_app os1 os2 w : run (os1 ++ os2) w = run os2 (run os1 w).
Proof. apply foldl_app. Qed.

Lemma run_loads_edit calls w :
  editId (state (run (LoadPeople <$> calls) w)) = editId (state w)
  ∧ editedPerson (state (run (LoadPeople <$> calls) w)) = editedPerson (state w).
Proof.
  revert w. induction calls as [|c calls IH]; intros w; [done|].
  rewrite fmap_cons, run_cons. by destruct (IH (step (LoadPeople c) w)) as [-> ->].
Qed.

(** C9: after any sequence of [loadPeople] calls, [people] is the sequence
    given to the most recent call, or the empty sequence when that call
    passed [null]; [editId] and [editedPerson] are those from before the
    calls. *)
Theorem loadPeople_latest (calls : list (option (list loc))) (c : option (list loc)) (w : Store) :
  let w' := run (LoadPeople <$> (calls ++ [c])) w in
  people (state w') = match c with Some ps => ps | None => [] end
  ∧ editId (state w') = editId (state w)
  ∧ editedPerson (state w') = editedPerson (state w).
Proof.
  intros w'. split; [|apply run_loads_edit].
  subst w'. rewrite fmap_app, run_app. by destruct c.
Qed.

(** C8: from any store, [cancelEditPerson()] returns with [editId] and
    [editedPerson] both [undefined] and with [people] as before; the heap,
    the calls made to the save service and the save subscription are as
    before as well. *)
Theorem cancelEditPerson_clears (w : Store) :
  let w' := cancelEditPerson w in
  editId (state w') = VUndefined
  ∧ editedPerson (state w') = VUndefined
  ∧ people (state w') = people (state w)
  ∧ objects w' = objects w
  ∧ saves w' = saves w
  ∧ pipe w' = pipe w.
Proof. by repeat split. Qed.

(** The scenario of the specification: [editId = 5] and an edited person
    with id [5]. *)
Example cancelEditPerson_scenario :
  let h : heap := {[ 9%positive := {[ "id" := VNum (Num 5) ]} ]} in
  let w := update (setEditedPerson (VRef 9))
             (update (setEditId (VNum (Num 5))) (new_store h)) in
  state w = {| people := []; editId := VNum (Num 5); editedPerson := VRef 9 |}
  ∧ state (cancelEditPerson w) = defaultState.
Proof. by split. Qed.

(** ** Selecting a person to edit *)

(** What [editPerson] stores, whatever the selection: a reference to an
    object allocated by the spread. *)
Lemma editPerson_allocates id w :
  ∃ l, editedPerson (state (editPerson id w)) = VRef l
       ∧ objects w !! l = None
       ∧ objects (editPerson id w) !! l
         = Some (spread_props (objects w) (personToEdit (objects w) id (people (state w)))).
Proof.
  exists (new_loc (objects w)). split; [done|]. split; [apply new_loc_unused|].
  rewrite editPerson_objects. apply lookup_insert_eq.
Qed.

(** For a selection that matches nobody, and for no selection, the object
    stored is the empty object [{}]. *)
Lemma editPerson_no_match id w :
  no_selection id = true
  ∨ Forall (λ p, has_id (objects w) id p = false) (people (state w)) →
  ∃ l, editedPerson (state (editPerson id w)) = VRef l
       ∧ objects (editPerson id w) !! l = Some ∅.
Proof.
  intros H. destruct (editPerson_allocates id w) as (l & Hl & _ & Ho).
  exists l. split; [done|]. rewrite Ho.
  destruct H as [H|H].
  - by rewrite personToEdit_no_selection.
  - by rewrite personToEdit_absent.
Qed.

(** C1, on the list [[luke; leia; yoda]] (ids 1, 2, 0): selecting the
    absent id [7] and selecting [undefined] both set [editId] to the input,
    but [editedPerson] becomes a reference to a newly allocated empty
    object, not [undefined]. *)
Theorem editPerson_absent_stores_empty_object :
  let w1 := editPerson (VNum (Num 7)) demo in
  let w2 := editPerson VUndefined demo in
  find_person (objects demo) (VNum (Num 7)) (people (state demo)) = None
  ∧ editId (state w1) = VNum (Num 7)
  ∧ editedPerson (state w1) = VRef 4
  ∧ objects w1 !! 4%positive = Some ∅
  ∧ editId (state w2) = VUndefined
  ∧ editedPerson (state w2) = VRef 4
  ∧ objects w2 !! 4%positive = Some ∅
  ∧ editedPerson (state w1) ≠ VUndefined
  ∧ editedPerson (state w2) ≠ VUndefined.
Proof. vm_compute. by repeat split. Qed.

(** The copy made for the first match [l] of a number [n]. *)
Lemma editPerson_first_match (w : Store) (n : number) (pre : list loc) (l : loc) (post : list loc) :
  people_allocated w →
  people (state w) = pre ++ l :: post →
  has_id (objects w) (VNum n) l = true →
  Forall (λ p, has_id (objects w) (VNum n) p = false) pre →
  let w' := editPerson (VNum n) w in
  editId (state w') = VNum n
  ∧ people (state w') = people (state w)
  ∧ ∃ l', editedPerson (state w') = VRef l'
          ∧ (l' ∉ people (state w'))
          ∧ objects w !! l' = None
          ∧ is_Some (objects w' !! l')
          ∧ objects w' !! l' = objects w !! l
          ∧ (∀ p, p ∈ people (state w') → objects w' !! p = objects w !! p)
          ∧ (∀ k v p, p ∈ people (state w') →
                      (set_prop (objects w') l' k v) !! p = objects w !! p).
Proof.
  intros Hall Hps Hl Hpre w'.
  assert (Hin : ∀ p, p ∈ people (state w) → p ≠ new_loc (objects w)).
  { intros p Hp. apply new_loc_ne.
    unfold people_allocated in Hall. rewrite Forall_forall in Hall. by apply Hall. }
  assert (Hsome : is_Some (objects w !! l)).
  { unfold people_allocated in Hall. rewrite Forall_forall in Hall.
    apply Hall. rewrite Hps. set_solver. }
  split; [done|]. split; [done|].
  exists (new_loc (objects w)). subst w'.
  rewrite editPerson_people, editPerson_objects, Hps.
  rewrite (personToEdit_first _ _ _ _ _ Hpre Hl). rewrite <- Hps.
  destruct Hsome as [o Ho]. simpl. rewrite Ho. simpl.
  repeat split.
  - intros Hp. by apply Hin in Hp.
  - apply new_loc_unused.
  - rewrite lookup_insert_eq. eauto.
  - by rewrite lookup_insert_eq.
  - intros p Hp. apply Hin in Hp. by rewrite lookup_insert_ne.
  - intros k v p Hp. apply Hin in Hp. unfold set_prop.
    rewrite lookup_alter_ne by done. by rewrite lookup_insert_ne.
Qed.

Lemma existsb_first {A} (f : A → bool) (l : list A) :
  existsb f l = true →
  ∃ pre x post, l = pre ++ x :: post ∧ f x = true ∧ Forall (λ y, f y = false) pre.
Proof.
  induction l as [|a l IH]; simpl; [discriminate|].
  destruct (f a) eqn:E; simpl.
  - intros _. by exists [], a, l.
  - intros (pre & x & post & -> & Hx & Hpre)%IH.
    exists (a :: pre), x, post. repeat split; [done|]. by constructor.
Qed.

(** C5: for every number [n] (zero included) that is the [id] of some
    person of [people], [editPerson(n)] sets [editId] to [n] and
    [editedPerson] to a reference [l'] to a new object that has the
    properties of [l], the first person of [people] with that id; [l'] is
    no element of [people], the objects of [people] are as before, and
    they stay so when a property of [l'] is assigned. *)
Theorem editPerson_present (w : Store) (n : number) :
  people_allocated w →
  present (objects w) (VNum n) (people (state w)) = true →
  let w' := editPerson (VNum n) w in
  editId (state w') = VNum n
  ∧ people (state w') = people (state w)
  ∧ ∃ pre l post l',
      people (state w) = pre ++ l :: post
      ∧ has_id (objects w) (VNum n) l = true
      ∧ Forall (λ p, has_id (objects w) (VNum n) p = false) pre
      ∧ editedPerson (state w') = VRef l'
      ∧ (l' ∉ people (state w'))
      ∧ objects w !! l' = None
      ∧ is_Some (objects w' !! l')
      ∧ objects w' !! l' = objects w !! l
      ∧ (∀ p, p ∈ people (state w') → objects w' !! p = objects w !! p)
      ∧ (∀ k v p, p ∈ people (state w') →
                  (set_prop (objects w') l' k v) !! p = objects w !! p).
Proof.
  intros Hall (pre & l & post & Hps & Hl & Hpre)%existsb_first w'.
  destruct (editPerson_first_match w n pre l post Hall Hps Hl Hpre)
    as (Hid & Hpeople & l' & H).
  split; [done|]. split; [done|]. by exists pre, l, post, l'.
Qed.

(** The list [[luke; leia; yoda]] and the id [0] of its last person. *)
Lemma editPerson_present_witness :
  people_allocated demo
  ∧ present (objects demo) (VNum (Num 0)) (people (state demo)) = true
  ∧ let w' := editPerson (VNum (Num 0)) demo in
    editId (state w') = VNum (Num 0)
    ∧ people (state w') = people (state demo)
    ∧ ∃ pre l post l',
        people (state demo) = pre ++ l :: post
        ∧ has_id (objects demo) (VNum (Num 0)) l = true
        ∧ Forall (λ p, has_id (objects demo) (VNum (Num 0)) p = false) pre
        ∧ editedPerson (state w') = VRef l'
        ∧ (l' ∉ people (state w'))
        ∧ objects demo !! l' = None
        ∧ is_Some (objects w' !! l')
        ∧ objects w' !! l' = objects demo !! l
        ∧ (∀ p, p ∈ people (state w') → objects w' !! p = objects demo !! p)
        ∧ (∀ k v p, p ∈ people (state w') →
                    (set_prop (objects w') l' k v) !! p = objects demo !! p).
Proof.
  assert (Ha : people_allocated demo).
  { apply (bool_decide_unpack (people_allocated demo)). vm_compute. exact I. }
  assert (Hp : present (objects demo) (VNum (Num 0)) (people (state demo)) = true).
  { vm_compute. reflexivity. }
  split; [exact Ha|]. split; [exact Hp|].
  exact (editPerson_present demo (Num 0) Ha Hp).
Defined.

(** The scenario of the specification: after [editPerson(1)] the edited
    person is a copy of [luke] at a new reference, and renaming the copy
    leaves the entry of [people] as it was. *)
Example editPerson_scenario :
  let w := editPerson (VNum (Num 1)) demo in
  editedPerson (state w) = VRef 4
  ∧ objects w !! 4%positive = Some luke
  ∧ (set_prop (objects w) 4%positive "name" (VStr "Luke X")) !! 4%positive = Some luke_x
  ∧ (set_prop (objects w) 4%positive "name" (VStr "Luke X")) !! 1%positive = Some luke.
Proof. vm_compute. by repeat split. Qed.

(** ** The invariant between [editId] and [editedPerson] *)

(** C2, as stated, fails: the invariant holds before and is lost by
    [setEditId(undefined)] while a person is edited, by
    [setEditedPerson(p)] while nothing is selected, and by
    [editPerson(undefined)]. *)
Lemma edit_invariant_not_preserved :
  (edit_invariant (state editing_luke)
   ∧ ¬ edit_invariant (state (step (SetEditId VUndefined) editing_luke)))
  ∧ (edit_invariant (state demo)
     ∧ ¬ edit_invariant (state (step (SetEditedPerson (VRef 1)) demo)))
  ∧ (edit_invariant (state demo)
     ∧ ¬ edit_invariant (state (step (EditPerson VUndefined) demo))).
Proof.
  repeat split; try (intros _; reflexivity); try discriminate.
  all: intros H; specialize (H eq_refl); discriminate H.
Qed.

(** C2, amended: the invariant is preserved by [loadPeople],
    [cancelEditPerson], the save trigger and the notifications of the save
    service (the success handler among them) and [ngOnDestroy], by
    [editPerson] and [setEditId] for an input other than [undefined], and
    by [setEditedPerson(undefined)]. *)
Theorem edit_invariant_preserved (o : Op) (w : Store) :
  keeps_invariant o = true →
  edit_invariant (state w) →
  edit_invariant (state (step o w)).
Proof.
  intros Hk Hinv. destruct o; simpl in *.
  - exact Hinv.
  - apply negb_true_iff, bool_decide_eq_false in Hk. by intros ?.
  - apply bool_decide_eq_true in Hk. by subst.
  - apply negb_true_iff, bool_decide_eq_false in Hk. by intros ?.
  - by intros _.
  - unfold saveEditPerson. by destruct (pipe w).
  - unfold save_resolves. case_decide; [by intros _ | done].
  - unfold save_fails. by case_decide.
  - unfold save_completes. by case_decide.
  - exact Hinv.
Qed.

Lemma edit_invariant_preserved_witness :
  edit_invariant (state (step (EditPerson (VNum (Num 1))) demo))
  ∧ edit_invariant (state (step CancelEditPerson editing_luke)).
Proof.
  split.
  - apply (edit_invariant_preserved (EditPerson (VNum (Num 1))) demo).
    + reflexivity.
    + apply (bool_decide_unpack (edit_invariant (state demo))). vm_compute. exact I.
  - apply (edit_invariant_preserved CancelEditPerson editing_luke).
    + reflexivity.
    + apply (bool_decide_unpack (edit_invariant (state editing_luke))).
      vm_compute. exact I.
Defined.

(** ** The save pipeline *)

Lemma saveEditPerson_current w :
  listening (pipe w) = true →
  current_call (saveEditPerson w) = Some (length (saves w)).
Proof. unfold saveEditPerson, current_call. by destruct (pipe w). Qed.

Lemma saveEditPerson_state w : state (saveEditPerson w) = state w.
Proof. unfold saveEditPerson. by destruct (pipe w). Qed.

Lemma saveEditPerson_saves w :
  saves (saveEditPerson w)
  = if listening (pipe w)
    then saves w ++ [mkCall (editedPerson (state w)) (editId (state w))]
    else saves w.
Proof. unfold saveEditPerson. by destruct (pipe w). Qed.

Lemma saveEditPerson_latest w : latest_inner (saveEditPerson w).
Proof.
  unfold latest_inner, saveEditPerson, current_call.
  destruct (pipe w) eqn:E; simpl; rewrite ?E; intros c Hc; [|discriminate Hc..].
  injection Hc as <-. rewrite length_app. simpl. lia.
Qed.

Lemma step_saves_length o w : (length (saves w) ≤ length (saves (step o w)))%nat.
Proof.
  destruct o; simpl; try done.
  - rewrite saveEditPerson_saves. destruct (listening _); [|done].
    rewrite length_app. lia.
  - unfold save_resolves. by case_decide.
  - unfold save_fails. by case_decide.
  - unfold save_completes. by case_decide.
Qed.

Lemma step_current o w c :
  current_call (step o w) = Some c →
  current_call w = Some c ∧ saves (step o w) = saves w
  ∨ o = SaveEditPerson.
Proof.
  destruct o; simpl; auto.
  - unfold save_resolves. case_decide; auto.
  - unfold save_fails. case_decide; auto. discriminate.
  - unfold save_completes. case_decide; auto. discriminate.
  - discriminate.
Qed.

Lemma step_latest o w : latest_inner w → latest_inner (step o w).
Proof.
  intros Hw c Hc. destruct (step_current _ _ _ Hc) as [[Hc' ->]| ->].
  - by apply Hw.
  - by apply saveEditPerson_latest.
Qed.

Lemma run_latest os w : latest_inner w → latest_inner (run os w).
Proof.
  revert w. induction os as [|o os IH]; intros w Hw; [done|].
  rewrite run_cons. by apply IH, step_latest.
Qed.

Lemma run_saves_length os w : (length (saves w) ≤ length (saves (run os w)))%nat.
Proof.
  revert w. induction os as [|o os IH]; intros w; [done|].
  rewrite run_cons. etrans; [apply (step_saves_length o)|apply IH].
Qed.

(** A superseded call is not the call in flight, whatever happened since. *)
Lemma superseded_not_current w os k :
  latest_inner w → (S k < length (saves w))%nat →
  current_call (run os w) ≠ Some k.
Proof.
  intros Hw Hk Hc. apply (run_latest os) in Hw. apply Hw in Hc.
  pose proof (run_saves_length os w). lia.
Qed.

(** *** A save that succeeds *)

(** C4: when the save pipeline is subscribed, a save trigger followed by
    the success of the call it made leaves [editId] and [editedPerson]
    both [undefined]. *)
Theorem save_success_clears_edit (w : Store) (person : value) :
  listening (pipe w) = true →
  let k := length (saves w) in
  let w' := run [SaveEditPerson; SaveResolves k person] w in
  saves (saveEditPerson w)
  = saves w ++ [mkCall (editedPerson (state w)) (editId (state w))]
  ∧ editId (state w') = VUndefined
  ∧ editedPerson (state w') = VUndefined
  ∧ people (state w') = people (state w).
Proof.
  intros Hl k w'. split.
  { by rewrite saveEditPerson_saves, Hl. }
  subst w'. unfold run. simpl. unfold save_resolves.
  rewrite decide_True by by apply saveEditPerson_current.
  unfold on_save_next. rewrite clearEditedPerson_state. simpl.
  by rewrite saveEditPerson_state.
Qed.

(** The scenario of the specification: the edited person is
    [{id: 1, name: "Luke X"}], the edit id is [1], and the save service
    answers with [{id: 1, name: "Luke X"}]. *)
Lemma save_success_clears_edit_witness :
  let w := editing_luke_x in
  let w' := run [SaveEditPerson; SaveResolves 0 (VRef 5)] w in
  saves (saveEditPerson w)
  = saves w ++ [mkCall (editedPerson (state w)) (editId (state w))]
  ∧ editId (state w') = VUndefined
  ∧ editedPerson (state w') = VUndefined
  ∧ people (state w') = people (state w).
Proof.
  apply (save_success_clears_edit editing_luke_x (VRef 5)).
  vm_compute. reflexivity.
Defined.

(** *** A save that fails *)

(** C6: when the save pipeline is subscribed, a save trigger followed by
    the failure of the call it made leaves the state and the heap as they
    were before the trigger, adds the error, and nothing else, to the log,
    makes no further call to the save service, and returns. *)
Theorem save_failure_logged_once (w : Store) (e : value) :
  listening (pipe w) = true →
  let k := length (saves w) in
  let w' := run [SaveEditPerson; SaveFails k e] w in
  state w' = state w
  ∧ objects w' = objects w
  ∧ console w' = console w ++ [LogError e]
  ∧ saves w' = saves w ++ [mkCall (editedPerson (state w)) (editId (state w))].
Proof.
  intros Hl k w'. subst w'. unfold run. simpl. unfold save_fails.
  rewrite decide_True by by apply saveEditPerson_current.
  unfold on_save_error. simpl.
  rewrite saveEditPerson_state, saveEditPerson_saves, Hl.
  unfold saveEditPerson. by destruct (pipe w).
Qed.

Lemma save_failure_logged_once_witness :
  let w := editing_luke_x in
  let e := VStr "504 Gateway Timeout" in
  let w' := run [SaveEditPerson; SaveFails 0 e] w in
  state w' = state w
  ∧ objects w' = objects w
  ∧ console w' = console w ++ [LogError e]
  ∧ saves w' = saves w ++ [mkCall (editedPerson (state w)) (editId (state w))].
Proof.
  apply (save_failure_logged_once editing_luke_x (VStr "504 Gateway Timeout")).
  vm_compute. reflexivity.
Defined.

(** *** Two saves in flight *)

(** C7: after two save triggers in a row, the result of the first call is
    dropped whenever it arrives, be it a success or a failure and whatever
    happened to the store in between, while the result of the second call,
    arriving next, runs the success or the error callback. *)
Theorem save_switches_to_latest (w : Store) (os : list Op) (person e : value) :
  listening (pipe w) = true →
  let k1 := length (saves w) in
  let w2 := run [SaveEditPerson; SaveEditPerson] w in
  let k2 := S k1 in
  length (saves w2) = S k2
  ∧ save_resolves k1 person (run os w2) = run os w2
  ∧ save_fails k1 e (run os w2) = run os w2
  ∧ save_resolves k2 person w2 = on_save_next person w2
  ∧ save_fails k2 e w2 = on_save_error e w2.
Proof.
  intros Hl k1 w2 k2.
  assert (Hl1 : listening (pipe (saveEditPerson w)) = true).
  { unfold saveEditPerson. by destruct (pipe w). }
  assert (Hlen : length (saves w2) = S k2).
  { subst w2. unfold run. simpl.
    rewrite !saveEditPerson_saves, Hl1, Hl, !length_app. simpl. lia. }
  assert (Hcur : current_call w2 = Some k2).
  { subst w2. unfold run. simpl. rewrite (saveEditPerson_current _ Hl1).
    rewrite saveEditPerson_saves, Hl, length_app. simpl. f_equal. lia. }
  assert (Hold : current_call (run os w2) ≠ Some k1).
  { apply superseded_not_current; [apply saveEditPerson_latest | lia]. }
  split; [done|]. unfold save_resolves, save_fails.
  rewrite !(decide_False _ _ Hold), !(decide_True _ _ Hcur). done.
Qed.

(** Two triggers while editing; the form is cancelled before the answer of
    the first call arrives. *)
Lemma save_switches_to_latest_witness :
  let w := editing_luke_x in
  let os := [CancelEditPerson] in
  let person := VRef 5 in
  let e := VStr "504 Gateway Timeout" in
  let w2 := run [SaveEditPerson; SaveEditPerson] w in
  length (saves w2) = 2%nat
  ∧ save_resolves 0 person (run os w2) = run os w2
  ∧ save_fails 0 e (run os w2) = run os w2
  ∧ save_resolves 1 person w2 = on_save_next person w2
  ∧ save_fails 1 e w2 = on_save_error e w2.
Proof.
  apply (save_switches_to_latest editing_luke_x [CancelEditPerson]
           (VRef 5) (VStr "504 Gateway Timeout")).
  vm_compute. reflexivity.
Defined.

(** *** What the success callback selects *)

(** The callback of the source passes the saved person itself.  An object
    is truthy and is [===] to no number, so whenever the ids of [people]
    are not object references the selector finds nobody. *)
Lemma personToEdit_object h (l : loc) ps :
  Forall (λ p, ∀ l', get_prop h p "id" ≠ VRef l') ps →
  personToEdit h (VRef l) ps = None.
Proof.
  intros Hps. apply personToEdit_absent.
  eapply Forall_impl; [exact Hps|]. intros p Hp. simpl in Hp. unfold has_id.
  destruct (get_prop h p "id") as [| | |[]| |l'] eqn:E; try done.
  by destruct (Hp l').
Qed.

(** C3, on the save scenario, where the service answers with the person
    [{id: 1, name: "Luke X"}] at reference [5]: the success callback runs
    the edit selector on the reference [5], not on the number [1].  The
    selector therefore sets [editId] to the person object and
    [editedPerson] to an empty object, where the selection by id sets them
    to [1] and to a copy of the person with id [1] in [people].  Both then
    clear the edit state, and the heaps they leave differ. *)
Theorem save_success_selects_by_object :
  let w := awaiting_save in
  let by_object := editPerson (VRef 5) w in
  let by_id := editPerson (get_prop (objects w) 5%positive "id") w in
  current_call w = Some 0%nat
  ∧ get_prop (objects w) 5%positive "id" = VNum (Num 1)
  ∧ save_resolves 0 (VRef 5) w = clearEditedPerson by_object
  ∧ editId (state by_object) = VRef 5
  ∧ editedPerson (state by_object) = VRef 7
  ∧ objects by_object !! 7%positive = Some ∅
  ∧ editId (state by_id) = VNum (Num 1)
  ∧ editedPerson (state by_id) = VRef 7
  ∧ objects by_id !! 7%positive = Some luke
  ∧ state (save_resolves 0 (VRef 5) w) = state (on_save_next_by_id 5%positive w)
  ∧ objects (save_resolves 0 (VRef 5) w) ≠ objects (on_save_next_by_id 5%positive w).
Proof.
  repeat split; try (vm_compute; reflexivity).
  intros H. apply (f_equal (.!! 7%positive)) in H. vm_compute in H. discriminate H.
Qed.

(** *** After a failed save *)

Section Ended.
Context (w : Store) (Hw : listening (pipe w) = false).

Lemma ended_current : current_call w = None.
Proof using Hw. unfold current_call. by destruct (pipe w). Qed.

Lemma ended_save_op o : is_save_op o = true → step o w = w.
Proof using Hw.
  pose proof ended_current as Hc.
  destruct o; try discriminate; intros _; simpl.
  - unfold saveEditPerson. by destruct (pipe w).
  - unfold save_resolves. rewrite Hc. by case_decide.
  - unfold save_fails. rewrite Hc. by case_decide.
  - unfold save_completes. rewrite Hc. by case_decide.
Qed.

Lemma ended_step o : listening (pipe (step o w)) = false.
Proof using Hw.
  destruct (is_save_op o) eqn:E; [by rewrite ended_save_op|].
  by destruct o.
Qed.

Lemma ended_step_saves o : saves (step o w) = saves w.
Proof using Hw.
  destruct (is_save_op o) eqn:E; [by rewrite ended_save_op|].
  by destruct o.
Qed.
End Ended.

Lemma ended_run os w :
  listening (pipe w) = false →
  listening (pipe (run os w)) = false
  ∧ saves (run os w) = saves w
  ∧ run os w = run (List.filter (λ o, negb (is_save_op o)) os) w.
Proof.
  revert w. induction os as [|o os IH]; intros w Hw; [done|].
  rewrite run_cons.
  destruct (IH (step o w) (ended_step w Hw o)) as (Hl & Hs & Hr).
  split; [done|]. split; [by rewrite Hs, ended_step_saves|].
  simpl. destruct (is_save_op o) eqn:E; simpl.
  - rewrite (ended_save_op w Hw o E) in *. exact Hr.
  - exact Hr.
Qed.

(** C10: once the call in flight has failed, the save subscription has
    ended: whatever happens to the store afterwards, a save trigger leaves
    the store as it is, no call is made to the save service any more, no
    notification of the service changes the store, and the store is the one
    reached without the later triggers and notifications. *)
Theorem save_trigger_dead_after_failure (w : Store) (k : nat) (e person : value) (os : list Op) :
  current_call w = Some k →
  let w1 := save_fails k e w in
  let w2 := run os w1 in
  pipe w1 = Errored
  ∧ saveEditPerson w2 = w2
  ∧ saves w2 = saves w
  ∧ (∀ k', save_resolves k' person w2 = w2)
  ∧ w2 = run (List.filter (λ o, negb (is_save_op o)) os) w1.
Proof.
  intros Hk w1 w2.
  assert (H1 : pipe w1 = Errored).
  { subst w1. unfold save_fails. by rewrite decide_True. }
  assert (Hs1 : saves w1 = saves w).
  { subst w1. unfold save_fails. by rewrite decide_True. }
  assert (Hd : listening (pipe w1) = false) by by rewrite H1.
  destruct (ended_run os w1 Hd) as (Hl & Hs & Hr). fold w2 in Hl, Hs.
  split; [done|]. split; [exact (ended_save_op w2 Hl SaveEditPerson eq_refl)|].
  split; [by rewrite Hs|]. split; [|exact Hr].
  intros k'. exact (ended_save_op w2 Hl (SaveResolves k' person) eq_refl).
Qed.

(** The first save fails; the user edits again and triggers a second
    save. *)
Lemma save_trigger_dead_after_failure_witness :
  let w := awaiting_save in
  let e := VStr "504 Gateway Timeout" in
  let os := [EditPerson (VNum (Num 2)); SaveEditPerson; SaveResolves 1 (VRef 5)] in
  let w1 := save_fails 0 e w in
  let w2 := run os w1 in
  pipe w1 = Errored
  ∧ saveEditPerson w2 = w2
  ∧ saves w2 = saves w
  ∧ (∀ k', save_resolves k' (VRef 5) w2 = w2)
  ∧ w2 = run (List.filter (λ o, negb (is_save_op o)) os) w1.
Proof.
  apply (save_trigger_dead_after_failure awaiting_save 0 (VStr "504 Gateway Timeout")
           (VRef 5) [EditPerson (VNum (Num 2)); SaveEditPerson; SaveResolves 1 (VRef 5)]).
  vm_compute. reflexivity.
Defined.

(** ** The guard of the selection *)


(** ** What the operations leave alone *)

Lemma step_objects_kept o w l ob :
  objects w !! l = Some ob → objects (step o w) !! l = Some ob.
Proof.
  intros Hl.
  assert (He : ∀ id w', objects w' !! l = Some ob →
                        objects (editPerson id w') !! l = Some ob).
  { intros id w' H. rewrite editPerson_objects, lookup_insert_ne; [done|].
    apply not_eq_sym, new_loc_ne. eauto. }
  destruct o; simpl; try done.
  - by apply He.
  - unfold saveEditPerson. by destruct (pipe w).
  - unfold save_resolves. case_decide; [|done].
    unfold on_save_next. rewrite clearEditedPerson_objects. by apply He.
  - unfold save_fails. by case_decide.
  - unfold save_completes. by case_decide.
Qed.

(** X2: no operation of the store assigns to or removes an object that is
    in the heap: whatever the sequence of operations, an object keeps its
    properties.  In particular the persons of [people] are never written,
    not by [editPerson] and not by a successful save. *)
Theorem run_objects_kept (os : list Op) (w : Store) (l : loc) (ob : gmap string value) :
  objects w !! l = Some ob → objects (run os w) !! l = Some ob.
Proof.
  revert w. induction os as [|o os IH]; intros w Hl; [done|].
  rewrite run_cons. by apply IH, step_objects_kept.
Qed.

Lemma run_objects_kept_witness :
  objects (run [EditPerson (VNum (Num 1)); SaveEditPerson;
                SaveResolves 0 (VRef 5); EditPerson (VNum (Num 1))]
             (update (loadPeople (Some [1; 2; 3]%positive)) (new_store saved_heap)))
    !! 1%positive = Some luke.
Proof.
  apply (run_objects_kept _ _ 1%positive luke). vm_compute. reflexivity.
Defined.

Lemma step_people_kept o w :
  is_load o = false → people (state (step o w)) = people (state w).
Proof.
  intros Ho. destruct o; try discriminate; simpl; try done.
  - unfold saveEditPerson. by destruct (pipe w).
  - unfold save_resolves. by case_decide.
  - unfold save_fails. by case_decide.
  - unfold save_completes. by case_decide.
Qed.

(** X3: [people] is written by [loadPeople] only: a sequence of operations
    without [loadPeople] leaves the array as it is.  A successful save in
    particular does not put the saved person into [people]. *)
Theorem run_people_kept (os : list Op) (w : Store) :
  forallb (λ o, negb (is_load o)) os = true →
  people (state (run os w)) = people (state w).
Proof.
  revert w. induction os as [|o os IH]; intros w; [done|].
  simpl. intros [Ho Hos]%andb_true_iff. apply negb_true_iff in Ho.
  fold (run os (step o w)). rewrite (IH _ Hos). by apply step_people_kept.
Qed.

Lemma run_people_kept_witness :
  people (state (run [EditPerson (VNum (Num 1)); SaveEditPerson;
                      SaveResolves 0 (VRef 5); CancelEditPerson] demo))
  = [1; 2; 3]%positive.
Proof.
  apply (run_people_kept
           [EditPerson (VNum (Num 1)); SaveEditPerson;
            SaveResolves 0 (VRef 5); CancelEditPerson] demo).
  reflexivity.
Defined.

(** ** The console and the calls to the save service *)








(** ** The reference held in [editedPerson] *)

Lemma person_or_undefined_kept o w v :
  person_or_undefined (objects w) v → person_or_undefined (objects (step o w)) v.
Proof.
  destruct v as [| | | | |l]; try done. simpl.
  intros [ob Hob]. exists ob. by apply step_objects_kept.
Qed.

Lemma editPerson_edited_allocated id w : edited_allocated (editPerson id w).
Proof.
  unfold edited_allocated. rewrite editPerson_editedPerson, editPerson_objects.
  simpl. rewrite lookup_insert_eq. eauto.
Qed.

(** X5: [editedPerson] keeps the shape of its declared type and never
    dangles: if it is [undefined] or a reference to an object of the heap,
    it still is after any operation, a [setEditedPerson] with another kind
    of value excepted. *)
Theorem edited_allocated_preserved (o : Op) (w : Store) :
  stores_allocated w o → edited_allocated w → edited_allocated (step o w).
Proof.
  intros Ho Hw. unfold edited_allocated in *.
  destruct o; cbn [step cancelEditPerson]; try exact Hw.
  - exact Ho.
  - apply editPerson_edited_allocated.
  - exact I.
  - unfold saveEditPerson. by destruct (pipe w).
  - unfold save_resolves. case_decide; [exact I|exact Hw].
  - unfold save_fails. by case_decide.
  - unfold save_completes. by case_decide.
Qed.

Lemma edited_allocated_preserved_witness :
  edited_allocated (step (SaveResolves 0 (VRef 5)) awaiting_save)
  ∧ edited_allocated (step (SetEditedPerson (VRef 2)) awaiting_save).
Proof.
  assert (Hw : edited_allocated awaiting_save).
  { apply (bool_decide_unpack (edited_allocated awaiting_save)). vm_compute. exact I. }
  split.
  - apply (edited_allocated_preserved (SaveResolves 0 (VRef 5)) awaiting_save I Hw).
  - apply (edited_allocated_preserved (SetEditedPerson (VRef 2)) awaiting_save); [|exact Hw].
    apply (bool_decide_unpack (person_or_undefined (objects awaiting_save) (VRef 2))).
    vm_compute. exact I.
Defined.

Lemma update_console f w :
  console (update f w)
  = if listening (pipe w)
       && negb (strict_eq (editedPerson (state w)) (editedPerson (f (state w))))
    then console w ++ [LogEditedPerson (editedPerson (f (state w)))]
    else console w.
Proof. reflexivity. Qed.



Lemma editPerson_updates id w :
  editPerson id w
  = update (setEditedPerson (VRef (new_loc (objects w))))
      (with_objects (objects (editPerson id w)) (update (setEditId id) w)).
Proof. reflexivity. Qed.







(** ** The edit fields under the commands of the store *)

Lemma step_selection_cleared o w :
  is_setter o = false →
  selection_cleared (state w) → selection_cleared (state (step o w)).
Proof.
  intros Ho Hw. destruct o; simpl in Ho; try discriminate Ho;
    cbn [step cancelEditPerson].
  - exact Hw.
  - unfold selection_cleared. rewrite editPerson_editedPerson. discriminate.
  - by intros _.
  - by rewrite saveEditPerson_state.
  - unfold save_resolves. case_decide; [by intros _|exact Hw].
  - unfold save_fails. by case_decide.
  - unfold save_completes. by case_decide.
  - exact Hw.
Qed.

(** X8: as long as the two single-field updaters [setEditId] and
    [setEditedPerson] are not called directly, the store keeps this
    invariant: whenever [editedPerson] is [undefined], [editId] is
    [undefined] too.  An id that was selected and not found does not leave
    [editedPerson] undefined. *)
Theorem selection_cleared_invariant (os : list Op) (w : Store) :
  forallb (λ o, negb (is_setter o)) os = true →
  selection_cleared (state w) →
  selection_cleared (state (run os w)).
Proof.
  revert w. induction os as [|o os IH]; intros w; [done|].
  simpl. intros [Ho Hos]%andb_true_iff Hw. apply negb_true_iff in Ho.
  fold (run os (step o w)). by apply IH, step_selection_cleared.
Qed.

Lemma selection_cleared_invariant_witness :
  selection_cleared
    (state (run [LoadPeople (Some [1; 2; 3]%positive); EditPerson (VNum (Num 7));
                 SaveEditPerson; SaveFails 0 (VStr "offline"); EditPerson VUndefined]
              (new_store demo_heap))).
Proof.
  apply (selection_cleared_invariant
           [LoadPeople (Some [1; 2; 3]%positive); EditPerson (VNum (Num 7));
            SaveEditPerson; SaveFails 0 (VStr "offline"); EditPerson VUndefined]
           (new_store demo_heap)).
  - reflexivity.
  - apply (bool_decide_unpack (selection_cleared (state (new_store demo_heap)))).
    vm_compute. exact I.
Defined.

(** X9: [cancelEditPerson()] is idempotent on the whole store: a second
    call changes neither the state nor the console, whatever the edit
    fields held before the first. *)
Theorem cancelEditPerson_idempotent (w : Store) :
  cancelEditPerson (cancelEditPerson w) = cancelEditPerson w.
Proof.
  unfold cancelEditPerson, clearEditedPerson, update. simpl.
  by rewrite !andb_false_r.
Qed.

(** ** The end of the save subscription *)






Lemma step_listening o w :
  ends_pipeline o = false →
  listening (pipe w) = true → listening (pipe (step o w)) = true.
Proof.
  intros Ho Hw. destruct o; simpl in Ho; try discriminate Ho;
    cbn [step cancelEditPerson]; try done.
  - unfold saveEditPerson. by destruct (pipe w).
  - unfold save_resolves. by case_decide.
  - unfold save_completes. by case_decide.
Qed.

(** X12: the save pipeline stays subscribed as long as no save fails and
    the store is not destroyed; successes, completions, edits and loads do
    not end it.  A trigger then calls the save service exactly once more,
    with the [editedPerson] and the [editId] of that moment, and that call
    becomes the one in flight. *)
Theorem save_pipeline_stays_subscribed (os : list Op) (w : Store) :
  forallb (λ o, negb (ends_pipeline o)) os = true →
  listening (pipe w) = true →
  let w' := run os w in
  listening (pipe w') = true
  ∧ saves (saveEditPerson w')
    = saves w' ++ [mkCall (editedPerson (state w')) (editId (state w'))]
  ∧ current_call (saveEditPerson w') = Some (length (saves w')).
Proof.
  intros Hos Hw w'.
  assert (Hl : listening (pipe w') = true).
  { subst w'. revert w Hw Hos. induction os as [|o os IH]; intros w Hw; [done|].
    simpl. intros [Ho Hos]%andb_true_iff. apply negb_true_iff in Ho.
    fold (run os (step o w)). by apply IH; [apply step_listening|]. }
  split; [done|]. split.
  - by rewrite saveEditPerson_saves, Hl.
  - by apply saveEditPerson_current.
Qed.

Lemma save_pipeline_stays_subscribed_witness :
  let w' := run [SaveResolves 0 (VRef 5); SaveCompletes 0; EditPerson (VNum (Num 2))]
              awaiting_save in
  listening (pipe w') = true
  ∧ saves (saveEditPerson w')
    = saves w' ++ [mkCall (editedPerson (state w')) (editId (state w'))]
  ∧ current_call (saveEditPerson w') = Some (length (saves w')).
Proof.
  apply (save_pipeline_stays_subscribed
           [SaveResolves 0 (VRef 5); SaveCompletes 0; EditPerson (VNum (Num 2))]
           awaiting_save); reflexivity.
Defined.

(** ** Selecting again while editing *)

Lemma has_id_agree h h' id p : h !! p = h' !! p → has_id h id p = has_id h' id p.
Proof. unfold has_id, get_prop. by intros ->. Qed.

(** X13: selecting the person again throws the pending edit away.  After
    [editPerson(n)], an assignment to a property of the edited copy and a
    second [editPerson(n)], [editedPerson] is another new object, with the
    properties the person has in [people]; the copy that was edited stays
    in the heap with its assignment, referenced by the store no more. *)
Theorem editPerson_again_discards_edit (w : Store) (n : number) (k : string) (v : value) :
  people_allocated w →
  present (objects w) (VNum n) (people (state w)) = true →
  let w1 := editPerson (VNum n) w in
  let w2 := edit_copy k v w1 in
  let w3 := editPerson (VNum n) w2 in
  ∃ l1 l3 ob,
    editedPerson (state w1) = VRef l1
    ∧ objects w1 !! l1 = Some ob
    ∧ objects w2 !! l1 = Some (<[k := v]> ob)
    ∧ editId (state w3) = VNum n
    ∧ editedPerson (state w3) = VRef l3
    ∧ l1 ≠ l3
    ∧ objects w3 !! l3 = Some ob
    ∧ objects w3 !! l1 = Some (<[k := v]> ob).
Proof.
  intros Hall (pre & l & post & Hps & Hl & Hpre)%existsb_first w1 w2 w3.
  destruct (editPerson_first_match w n pre l post Hall Hps Hl Hpre)
    as (_ & _ & l1 & He1 & _ & _ & _ & Hcopy & _ & Hkept).
  fold w1 in He1, Hcopy, Hkept.
  assert (Hw2 : w2 = with_objects (set_prop (objects w1) l1 k v) w1).
  { unfold w2, edit_copy. by rewrite He1. }
  assert (Hin : ∀ p, p ∈ people (state w) → objects w2 !! p = objects w !! p).
  { intros p Hp. rewrite Hw2. by apply Hkept. }
  assert (Hob : is_Some (objects w !! l)).
  { unfold people_allocated in Hall. rewrite Forall_forall in Hall.
    apply Hall. rewrite Hps. set_solver. }
  destruct Hob as [ob Hob].
  assert (Hl1 : objects w2 !! l1 = Some (<[k := v]> ob)).
  { rewrite Hw2. cbn [objects with_objects]. unfold set_prop.
    rewrite lookup_alter_eq, Hcopy, Hob. done. }
  assert (Hall2 : people_allocated w2).
  { unfold people_allocated in *. rewrite Forall_forall in *.
    intros p Hp. rewrite Hw2 in Hp. rewrite (Hin p Hp). by apply Hall. }
  assert (Hps2 : people (state w2) = pre ++ l :: post) by by rewrite Hw2.
  assert (Hl2 : has_id (objects w2) (VNum n) l = true).
  { rewrite <- Hl. apply has_id_agree, Hin. rewrite Hps. set_solver. }
  assert (Hpre2 : Forall (λ p, has_id (objects w2) (VNum n) p = false) pre).
  { rewrite Forall_forall in *. intros p Hp. rewrite <- (Hpre p Hp).
    apply has_id_agree, Hin. rewrite Hps. set_solver. }
  destruct (editPerson_first_match w2 n pre l post Hall2 Hps2 Hl2 Hpre2)
    as (Hid3 & _ & l3 & He3 & _ & Hnew & _ & Hcopy3 & _).
  fold w3 in Hid3, He3, Hcopy3.
  assert (Hne : l1 ≠ l3).
  { intros ->. rewrite Hl1 in Hnew. discriminate Hnew. }
  exists l1, l3, ob. repeat split; try done.
  - by rewrite Hcopy.
  - rewrite Hcopy3, Hin; [done|]. rewrite Hps. set_solver.
  - injection He3 as <-. unfold w3. rewrite editPerson_objects.
    rewrite lookup_insert_ne; [done|].
    intros Heq. apply Hne. by rewrite <- Heq.
Qed.

Lemma editPerson_again_discards_edit_witness :
  let w1 := editPerson (VNum (Num 1)) demo in
  let w2 := edit_copy "name" (VStr "Luke X") w1 in
  let w3 := editPerson (VNum (Num 1)) w2 in
  ∃ l1 l3 ob,
    editedPerson (state w1) = VRef l1
    ∧ objects w1 !! l1 = Some ob
    ∧ objects w2 !! l1 = Some (<["name" := VStr "Luke X"]> ob)
    ∧ editId (state w3) = VNum (Num 1)
    ∧ editedPerson (state w3) = VRef l3
    ∧ l1 ≠ l3
    ∧ objects w3 !! l3 = Some ob
    ∧ objects w3 !! l1 = Some (<["name" := VStr "Luke X"]> ob).
Proof.
  apply (editPerson_again_discards_edit demo (Num 1) "name" (VStr "Luke X")).
  - apply (bool_decide_unpack (people_allocated demo)). vm_compute. exact I.
  - vm_compute. reflexivity.
Defined.

(** ** What a trigger sends to the save service *)

(** X14: a save triggered after selecting an id that matches nobody (or
    after selecting [undefined]) still calls the save service: with a
    reference to the empty object the selector stored, and with the
    selected id. *)
Theorem save_after_no_match_sends_empty_object (id : value) (w : Store) :
  listening (pipe w) = true →
  no_selection id = true
  ∨ Forall (λ p, has_id (objects w) id p = false) (people (state w)) →
  let w' := saveEditPerson (editPerson id w) in
  ∃ l, saves w' = saves w ++ [mkCall (VRef l) id]
       ∧ objects w' !! l = Some ∅
       ∧ objects w !! l = None.
Proof.
  intros Hl Hno w'. exists (new_loc (objects w)).
  assert (Hl' : listening (pipe (editPerson id w)) = true) by by rewrite editPerson_pipe.
  split; [|split; [|apply new_loc_unused]].
  - unfold w'. by rewrite saveEditPerson_saves, Hl'.
  - assert (Ho : objects w' = objects (editPerson id w)).
    { unfold w', saveEditPerson. by destruct (pipe (editPerson id w)). }
    rewrite Ho, editPerson_objects, lookup_insert_eq. f_equal.
    destruct Hno as [H|H].
    + by rewrite personToEdit_no_selection.
    + by rewrite personToEdit_absent.
Qed.

Lemma save_after_no_match_sends_empty_object_witness :
  let w' := saveEditPerson (editPerson (VNum (Num 7)) demo) in
  ∃ l, saves w' = saves demo ++ [mkCall (VRef l) (VNum (Num 7))]
       ∧ objects w' !! l = Some ∅
       ∧ objects demo !! l = None.
Proof.
  apply (save_after_no_match_sends_empty_object (VNum (Num 7)) demo).
  - reflexivity.
  - right. apply (bool_decide_unpack
      (Forall (λ p, has_id (objects demo) (VNum (Num 7)) p = false) (people (state demo)))).
    vm_compute. exact I.
Defined.

(** X15: the trigger does not look at the edit state: triggered after
    [cancelEditPerson()], it calls the save service with [undefined] for the
    person and [undefined] for the id. *)
Theorem save_after_cancel_sends_undefined (w : Store) :
  listening (pipe w) = true →
  saves (saveEditPerson (cancelEditPerson w))
  = saves w ++ [mkCall VUndefined VUndefined].
Proof.
  intros Hl. rewrite saveEditPerson_saves.
  unfold cancelEditPerson. by rewrite clearEditedPerson_pipe, Hl.
Qed.

Lemma save_after_cancel_sends_undefined_witness :
  saves (saveEditPerson (cancelEditPerson editing_luke))
  = saves editing_luke ++ [mkCall VUndefined VUndefined].
Proof. apply (save_after_cancel_sends_undefined editing_luke). reflexivity. Defined.
